(** * UCL_Matrix (ucl_matrix.h): a host matrix paired with a device matrix

    Shallow embedding of the Geryon [UCL_Matrix<hosttype,devtype>] class.
    The matrix owns a host buffer ([UCL_H_Mat<hosttype> host]) and a
    device buffer ([UCL_D_Mat<devtype> device]); every operation of the
    class is a short sequence of calls on these two members, or, where a
    [UCL_Device &device] parameter shadows the member, on that argument.  The calls
    run in a state monad over a world that holds the two members, the
    storage blocks they reference and a trace of the storage events issued
    by the buffers (the mock allocator of the tests). *)

From Stdlib Require Import ZArith Lia.
From stdpp Require Import base gmap list.

(* ------------------------------------------------------------------ *)
(** ** Element types, status codes, memory options, devices *)

(** The element types known to [_UCL_DATA_ID]. *)
Inductive elem_type :=
  | UCL_CHAR | UCL_UCHAR | UCL_SHORT | UCL_USHORT | UCL_INT | UCL_UINT
  | UCL_LONG | UCL_ULONG | UCL_FLOAT | UCL_DOUBLE.

#[global] Instance elem_type_eq_dec : EqDecision elem_type.
Proof. solve_decision. Defined.

(** [ucl_same_type<hosttype,devtype>::ans] *)
Definition ucl_same_type (a b : elem_type) : bool := bool_decide (a = b).

(** [enum UCL_ERROR_FLAG] *)
Definition UCL_SUCCESS : Z := 0.
Definition UCL_ERROR : Z := 1.
Definition UCL_MEMORY_ERROR : Z := 5.

(** [enum UCL_MEMOPT]: hints only, they never change an outcome. *)
Inductive UCL_MEMOPT :=
  | UCL_NOT_PINNED | UCL_WRITE_OPTIMIZED | UCL_RW_OPTIMIZED
  | UCL_READ_WRITE | UCL_WRITE_ONLY | UCL_READ_ONLY | UCL_VIEW.

(** The device (or the device behind the command queue [cq]) of an
    allocation: its [shared_memory()] capability. *)
Record UCL_Device := mkDevice { shared_memory : bool }.

(** The mock allocator of one [alloc] call: the status the host
    allocator and the device allocator report, and the (uninitialised)
    value fresh storage holds. *)
Record allocator := mkAllocator {
  host_result : Z;
  device_result : Z;
  fresh_fill : Z
}.

(* ------------------------------------------------------------------ *)
(** ** The world: storage, trace, and the two members of the matrix *)

(** Storage events, as a mock buffer counting its calls observes them.
    [ArgView] and [ArgAlloc rows cols] are the calls [device.view(host)]
    and [device.alloc(rows,cols,device,kind2)] made on a [UCL_Device]
    argument named [device] (the constructor and the [UCL_Device]
    overload of [alloc]); the [UCL_Device] class is not in this file,
    so only the call is recorded. *)
Inductive event :=
  | HostAlloc (b : nat) | HostAllocFail | HostFree (b : nat)
  | DevAlloc (b : nat) | DevAllocFail | DevFree (b : nat) | DevView (b : nat)
  | Zero (b : nat) (n : nat)
  | ArgView | ArgAlloc (rows cols : nat).

#[global] Instance event_eq_dec : EqDecision event.
Proof. solve_decision. Defined.

(** [UCL_H_Mat<hosttype>]: shape and the block of its host array. *)
Record UCL_H_Mat := mkH { h_rows : nat; h_cols : nat; h_array : option nat }.

(** The storage of a [UCL_D_Mat<devtype>]: none, owned, or a view of
    another buffer's block (owning nothing). *)
Inductive d_storage := D_NONE | D_OWNED (b : nat) | D_VIEWED (b : nat).

Record UCL_D_Mat := mkD { d_rows : nat; d_cols : nat; d_store : d_storage }.

Definition h_empty : UCL_H_Mat := mkH 0 0 None.
Definition d_empty : UCL_D_Mat := mkD 0 0 D_NONE.

Record world := mkWorld {
  heap : gmap nat (list Z);
  next_block : nat;
  trace : list event;
  host : UCL_H_Mat;
  device : UCL_D_Mat
}.

Definition set_heap (m : gmap nat (list Z)) (w : world) : world :=
  mkWorld m (next_block w) (trace w) (host w) (device w).
Definition set_next (n : nat) (w : world) : world :=
  mkWorld (heap w) n (trace w) (host w) (device w).
Definition set_trace (t : list event) (w : world) : world :=
  mkWorld (heap w) (next_block w) t (host w) (device w).
Definition set_host (h : UCL_H_Mat) (w : world) : world :=
  mkWorld (heap w) (next_block w) (trace w) h (device w).
Definition set_device (d : UCL_D_Mat) (w : world) : world :=
  mkWorld (heap w) (next_block w) (trace w) (host w) d.

(** A freshly constructed [UCL_Matrix] ([UCL_Matrix() { }]). *)
Definition init_world : world := mkWorld ∅ 0 [] h_empty d_empty.

(* ------------------------------------------------------------------ *)
(** ** A small state monad *)

Definition M (A : Type) : Type := world -> A * world.

#[global] Instance M_ret : MRet M := fun A a w => (a, w).
#[global] Instance M_bind : MBind M :=
  fun A B k m w => let '(a, w') := m w in k a w'.

Definition gets {A} (f : world -> A) : M A := fun w => (f w, w).
Definition modify (f : world -> world) : M unit := fun w => (tt, f w).
Definition emit (e : event) : M unit :=
  modify (fun w => set_trace (trace w ++ [e]) w).

(** Final state of running [m] on [w]. *)
Definition exec {A} (m : M A) (w : world) : world := snd (m w).
(** Result of running [m] on [w]. *)
Definition eval {A} (m : M A) (w : world) : A := fst (m w).

(** Storage primitives of the mock allocator. *)
Definition new_block (n : nat) (v : Z) : M nat :=
  fun w => (next_block w,
            set_next (S (next_block w))
              (set_heap (<[next_block w := replicate n v]> (heap w)) w)).

Definition free_block (b : nat) : M unit :=
  modify (fun w => set_heap (delete b (heap w)) w).

(** [memset] of the first [n] elements of a block to zero. *)
Definition zero_prefix (n : nat) (l : list Z) : list Z :=
  replicate (Nat.min n (length l)) 0%Z ++ drop n l.

Definition zero_block (b : nat) (n : nat) : M unit :=
  fun w =>
    match heap w !! b with
    | Some l => (tt, set_trace (trace w ++ [Zero b n])
                       (set_heap (<[b := zero_prefix n l]> (heap w)) w))
    | None => (tt, w)
    end.

(* ------------------------------------------------------------------ *)
(** ** The host buffer [UCL_H_Mat] *)

(** Modelled from the spec: [UCL_H_Mat::clear] (the host buffer is not
    in this file).  It releases the host storage it owns and resets the
    shape to zero; on a buffer without storage it does nothing. *)
Definition host_clear : M unit :=
  h ← gets host;
  (match h_array h with
   | Some b => free_block b ;; emit (HostFree b)
   | None => mret tt
   end) ;;
  modify (set_host h_empty).

(** Modelled from the spec: [UCL_H_Mat::alloc(rows,cols,cq,kind)].  The
    buffer owns the storage for [rows*cols] elements, so allocating again
    first releases what it owns; when the host allocator reports failure
    the buffer stays cleared and zero-sized and the allocator's status is
    returned. *)
Definition host_alloc (rows cols : nat) (a : allocator) : M Z :=
  host_clear ;;
  if Z.eqb (host_result a) UCL_SUCCESS then
    b ← new_block (rows * cols) (fresh_fill a);
    emit (HostAlloc b) ;;
    modify (set_host (mkH rows cols (Some b))) ;;
    mret UCL_SUCCESS
  else
    emit HostAllocFail ;;
    mret (host_result a).

(** Modelled from the spec: [UCL_H_Mat::zero()] and [zero(n)]. *)
Definition host_zero : M unit :=
  h ← gets host;
  match h_array h with
  | Some b => zero_block b (h_rows h * h_cols h)
  | None => mret tt
  end.

Definition host_zero_n (n : Z) : M unit :=
  h ← gets host;
  match h_array h with
  | Some b => zero_block b (Z.to_nat n)
  | None => mret tt
  end.

(** Modelled from the spec: [UCL_H_Mat::operator[](const int i)], the
    element [i] of the row-major host array ([None] where the access is
    out of range). *)
Definition host_at (i : Z) (w : world) : option Z :=
  match h_array (host w) with
  | Some b => l ← heap w !! b; if Z.ltb i 0 then None else l !! Z.to_nat i
  | None => None
  end.

(* ------------------------------------------------------------------ *)
(** ** The device buffer [UCL_D_Mat] *)

(** Modelled from the spec: [UCL_D_Mat::clear].  Only owned storage is
    freed; a view owns nothing, so clearing it issues no device free. *)
Definition dev_clear : M unit :=
  d ← gets device;
  (match d_store d with
   | D_OWNED b => free_block b ;; emit (DevFree b)
   | _ => mret tt
   end) ;;
  modify (set_device d_empty).

(** Modelled from the spec: [UCL_D_Mat::view(host)], aliasing the host
    buffer's storage and taking its shape; no storage is requested. *)
Definition dev_view : M unit :=
  dev_clear ;;
  h ← gets host;
  match h_array h with
  | Some b => emit (DevView b) ;;
              modify (set_device (mkD (h_rows h) (h_cols h) (D_VIEWED b)))
  | None => modify (set_device (mkD (h_rows h) (h_cols h) D_NONE))
  end.

(** Modelled from the spec: [UCL_D_Mat::alloc(rows,cols,cq,kind)],
    the device counterpart of [host_alloc]. *)
Definition dev_alloc (rows cols : nat) (a : allocator) : M Z :=
  dev_clear ;;
  if Z.eqb (device_result a) UCL_SUCCESS then
    b ← new_block (rows * cols) (fresh_fill a);
    emit (DevAlloc b) ;;
    modify (set_device (mkD rows cols (D_OWNED b))) ;;
    mret UCL_SUCCESS
  else
    emit DevAllocFail ;;
    mret (device_result a).

Definition d_block (d : UCL_D_Mat) : option nat :=
  match d_store d with
  | D_OWNED b | D_VIEWED b => Some b
  | D_NONE => None
  end.

(** Modelled from the spec: [UCL_D_Mat::zero()] and [zero(n)]; on a view
    they write the aliased storage. *)
Definition dev_zero : M unit :=
  d ← gets device;
  match d_block d with
  | Some b => zero_block b (d_rows d * d_cols d)
  | None => mret tt
  end.

Definition dev_zero_n (n : Z) : M unit :=
  d ← gets device;
  match d_block d with
  | Some b => zero_block b (Z.to_nat n)
  | None => mret tt
  end.

(** Modelled from the spec: element [i] of the device storage. *)
Definition dev_at (i : Z) (w : world) : option Z :=
  match d_block (device w) with
  | Some b => l ← heap w !! b; if Z.ltb i 0 then None else l !! Z.to_nat i
  | None => None
  end.

(* ------------------------------------------------------------------ *)
(** ** [UCL_Matrix<hosttype,devtype>] *)

(** [size_t] and [int] conversions of the index expression of the 2D
    accessor: [size_t] arithmetic wraps modulo 2^64, and the [size_t]
    result is converted to the [int] parameter of [operator[]]. *)
Definition to_size (z : Z) : Z := z mod 2 ^ 64.
Definition to_int (z : Z) : Z := (z + 2 ^ 31) mod 2 ^ 32 - 2 ^ 31.
Definition INT_MAX : Z := 2 ^ 31 - 1.

Section UCL_Matrix.
Variables hosttype devtype : elem_type.

(** The template overload [alloc(rows, cols, cq, kind1, kind2)]
    (lines 71-83), where [device] is the member device buffer and [dev]
    gives its [shared_memory()] capability:
    [int e1=host.alloc(rows,cols,cq,kind1);
     if (e1!=UCL_SUCCESS) return e1;
     if (ucl_same_type<hosttype,devtype>::ans && device.shared_memory()) {
       device.view(host); return UCL_SUCCESS;
     } else return device.alloc(rows,cols,cq,kind2);] *)
Definition alloc (dev : UCL_Device) (a : allocator) (rows cols : nat) : M Z :=
  e1 ← host_alloc rows cols a;
  if negb (Z.eqb e1 UCL_SUCCESS) then mret e1
  else if ucl_same_type hosttype devtype && shared_memory dev then
    dev_view ;; mret UCL_SUCCESS
  else dev_alloc rows cols a.

(** The overload [alloc(rows, cols, UCL_Device &device, kind1, kind2)]
    (lines 96-107).  Its parameter [device] shadows the member, so
    [device.shared_memory()], [device.view(host)] and
    [device.alloc(rows,cols,device,kind2)] are all calls on the
    [UCL_Device] argument [dev]; the member device buffer is not named in
    the body.  [arg_status] is what the argument's [alloc] returns. *)
Definition alloc_dev (dev : UCL_Device) (a : allocator) (arg_status : Z)
    (rows cols : nat) : M Z :=
  e1 ← host_alloc rows cols a;
  if negb (Z.eqb e1 UCL_SUCCESS) then mret e1
  else if ucl_same_type hosttype devtype && shared_memory dev then
    emit ArgView ;; mret UCL_SUCCESS
  else emit (ArgAlloc rows cols) ;; mret arg_status.
End UCL_Matrix.

(** [clear()]: [{ host.clear(); device.clear(); }] *)
Definition clear : M unit := host_clear ;; dev_clear.

(** [zero()]: [{ host.zero(); device.zero(); }] *)
Definition zero : M unit := host_zero ;; dev_zero.

(** [zero(const int n)]: [{ host.zero(n); device.zero(n); }] *)
Definition zero_n (n : Z) : M unit := host_zero_n n ;; dev_zero_n n.

(** [numel()], [rows()], [cols()]: the host buffer's shape. *)
Definition numel (w : world) : nat := h_rows (host w) * h_cols (host w).
Definition rows (w : world) : nat := h_rows (host w).
Definition cols (w : world) : nat := h_cols (host w).

(** [operator[](const int i)]: [host[i]]. *)
Definition op_index (i : Z) (w : world) : option Z := host_at i w.

(** [operator()(const int row, const int col)]: [host[row*_cols+col]];
    [_cols] is the column count of the matrix, held by the host buffer. *)
Definition op_call (row col : Z) (w : world) : option Z :=
  host_at (to_int (to_size (to_size row * Z.of_nat (h_cols (host w))
                            + to_size col))) w.

(** The disposition of the device side: a view of the host storage, an
    independent allocation, or none (cleared). *)
Inductive disposition := VIEW | INDEPENDENT.

Definition disposition_of (w : world) : option disposition :=
  match d_store (device w) with
  | D_VIEWED _ => Some VIEW
  | D_OWNED _ => Some INDEPENDENT
  | D_NONE => None
  end.

(** Number of device frees and host frees in a trace. *)
Definition is_dev_free (e : event) : bool :=
  match e with DevFree _ => true | _ => false end.
Definition is_host_free (e : event) : bool :=
  match e with HostFree _ => true | _ => false end.
Definition dev_frees (t : list event) : nat := length (List.filter is_dev_free t).
Definition host_frees (t : list event) : nat := length (List.filter is_host_free t).
(** Device allocation requests (successful or failed) and views. *)
Definition is_dev_request (e : event) : bool :=
  match e with DevAlloc _ | DevAllocFail | DevView _ => true | _ => false end.

(** Sample runs. *)
Definition ok_alloc : allocator := mkAllocator UCL_SUCCESS UCL_SUCCESS 3.
Definition gpu : UCL_Device := mkDevice false.
Definition apu : UCL_Device := mkDevice true.

Example alloc_ind_run :
  exec (alloc UCL_DOUBLE UCL_FLOAT gpu ok_alloc 4 3) init_world
  = mkWorld (<[1 := replicate 12 3%Z]> (<[0 := replicate 12 3%Z]> ∅)) 2
      [HostAlloc 0; DevAlloc 1] (mkH 4 3 (Some 0)) (mkD 4 3 (D_OWNED 1)).
Proof. reflexivity. Qed.

Example alloc_view_run :
  exec (alloc UCL_FLOAT UCL_FLOAT apu ok_alloc 4 3) init_world
  = mkWorld (<[0 := replicate 12 3%Z]> ∅) 1
      [HostAlloc 0; DevView 0] (mkH 4 3 (Some 0)) (mkD 4 3 (D_VIEWED 0)).
Proof. reflexivity. Qed.

(** Events a call appended to the trace. *)
Definition new_events (w w' : world) : list event :=
  drop (length (trace w)) (trace w').


(* ------------------------------------------------------------------ *)
(** ** Proofs *)

Create HintDb ucl.
#[local] Hint Unfold alloc clear zero zero_n host_clear host_alloc host_zero
  host_zero_n dev_clear dev_view dev_alloc dev_zero dev_zero_n gets modify
  emit new_block free_block zero_block exec eval mbind mret M_bind M_ret
  set_heap set_next set_trace set_host set_device : ucl.

(** Unfold a run of the monad on a world split into its fields. *)
Ltac run :=
  repeat autounfold with ucl; cbn [fst snd heap next_block trace host device
    h_rows h_cols h_array d_rows d_cols d_store h_empty d_empty d_block].

Lemma drop_new (t u : list event) : drop (length t) (t ++ u) = u.
Proof. by rewrite drop_app_length. Qed.

Lemma new_events_app (w w' : world) (u : list event) :
  trace w' = trace w ++ u -> new_events w w' = u.
Proof. unfold new_events. intros ->. apply drop_new. Qed.


(** The release of the storage a buffer owns, as the trace records it. *)
Definition host_release (w : world) : list event :=
  match h_array (host w) with Some b => [HostFree b] | None => [] end.
Definition dev_release (w : world) : list event :=
  match d_store (device w) with D_OWNED b => [DevFree b] | _ => [] end.



Ltac eqb_hyp H :=
  match type of H with
  | Z.eqb _ _ = true => apply Z.eqb_eq in H
  | Z.eqb _ _ = false => apply Z.eqb_neq in H
  end.

(** Split a run of [alloc] into all its paths. *)
Ltac alloc_split ht dt dev a w :=
      destruct w as [hp nb tr [hr hc ha] [dr dc ds]];
      unfold alloc; run;
      destruct (Z.eqb (host_result a) UCL_SUCCESS) eqn:Hh; cbn; rewrite ?Hh; cbn;
      destruct ha as [hb|]; destruct ds as [|db|db]; cbn;
      unfold ucl_same_type; (destruct (decide (ht = dt)) as [E|E];
        [rewrite bool_decide_true by exact E|rewrite bool_decide_false by exact E]);
      destruct (shared_memory dev) eqn:Hs; cbn;
      destruct (Z.eqb (device_result a) UCL_SUCCESS) eqn:Hd; cbn;
      rewrite ?Hh; cbn; eqb_hyp Hh; eqb_hyp Hd.

Ltac alloc_cases :=
  match goal with
  | |- context [exec (alloc ?ht ?dt ?dev ?a _ _) ?w] => alloc_split ht dt dev a w
  | |- context [eval (alloc ?ht ?dt ?dev ?a _ _) ?w] => alloc_split ht dt dev a w
  end.

(** C7: after a successful [alloc(rows, cols, ...)], [numel() = rows*cols],
    [rows() = rows], [cols() = cols], and the device buffer reports the
    same rows and columns as the host buffer (I1). *)
Theorem alloc_shape (ht dt : elem_type) (dev : UCL_Device) (a : allocator)
    (r c : nat) (w : world)
    (Hok : eval (alloc ht dt dev a r c) w = UCL_SUCCESS) :
  let w' := exec (alloc ht dt dev a r c) w in
  numel w' = r * c /\ rows w' = r /\ cols w' = c /\
  d_rows (device w') = rows w' /\ d_cols (device w') = cols w'.
Proof.
  revert Hok. unfold eval.
  replace (fst (alloc ht dt dev a r c w)) with
    (eval (alloc ht dt dev a r c) w) by reflexivity.
  alloc_cases; unfold eval, numel, rows, cols; cbn; intros Hok;
    first [ exfalso; congruence | repeat split ].
Qed.


Definition dev_fail_alloc : allocator := mkAllocator UCL_SUCCESS UCL_MEMORY_ERROR 3.
Definition host_fail_alloc : allocator := mkAllocator UCL_MEMORY_ERROR UCL_SUCCESS 3.

(** A 2x3 double/float matrix allocated independently on a device
    without shared memory. *)
Definition w_indep : world := exec (alloc UCL_DOUBLE UCL_FLOAT gpu ok_alloc 2 3) init_world.

(** C2 (counterexample): the device allocation fails after the host
    allocation succeeded; the error is returned but the host storage is
    not released and the matrix still reports 6 elements. *)
Lemma alloc_device_failure_keeps_host :
  let w' := exec (alloc UCL_DOUBLE UCL_FLOAT gpu dev_fail_alloc 2 3) init_world in
  eval (alloc UCL_DOUBLE UCL_FLOAT gpu dev_fail_alloc 2 3) init_world = UCL_MEMORY_ERROR /\
  numel w' = 6 /\ host_frees (trace w') = 0 /\
  heap w' !! 0%nat = Some (replicate 6 3%Z) /\ ~ (numel w' = 0).
Proof. vm_compute. repeat split; discriminate. Qed.

(** C2 (amended): when the host allocation succeeds and the independent
    device allocation fails, [alloc] returns the device allocator's
    status; the device buffer is left cleared, while the host buffer keeps
    its new [rows x cols] storage (it is never released on this path). *)
Theorem alloc_device_failure (ht dt : elem_type) (dev : UCL_Device)
    (a : allocator) (r c : nat) (w : world)
    (Hhost : host_result a = UCL_SUCCESS)
    (Hdev : device_result a <> UCL_SUCCESS)
    (Hind : ~ (ht = dt /\ shared_memory dev = true)) :
  let w' := exec (alloc ht dt dev a r c) w in
  eval (alloc ht dt dev a r c) w = device_result a /\
  numel w' = r * c /\ rows w' = r /\ cols w' = c /\
  h_array (host w') = Some (next_block w) /\
  device w' = d_empty /\ disposition_of w' = None /\
  new_events w w' =
    host_release w ++ [HostAlloc (next_block w)] ++ dev_release w ++ [DevAllocFail].
Proof.
  unfold eval. replace (fst (alloc ht dt dev a r c w)) with
    (eval (alloc ht dt dev a r c) w) by reflexivity.
  alloc_cases; unfold eval, numel, rows, cols, new_events, host_release, dev_release;
    cbn; try (exfalso; congruence); try (exfalso; tauto);
    rewrite <-?app_assoc, ?drop_new; repeat split.
Qed.

(** C6 (counterexample): a matrix allocated independently, then
    re-allocated with a failing host allocation, keeps its old device
    allocation: the device buffer is not cleared. *)
Lemma alloc_host_failure_keeps_device :
  let w' := exec (alloc UCL_DOUBLE UCL_FLOAT gpu host_fail_alloc 4 4) w_indep in
  eval (alloc UCL_DOUBLE UCL_FLOAT gpu host_fail_alloc 4 4) w_indep = UCL_MEMORY_ERROR /\
  numel w' = 0 /\ device w' = mkD 2 3 (D_OWNED 1) /\ device w' <> d_empty.
Proof. vm_compute. repeat split; discriminate. Qed.

(** C6 (amended): when the host allocation fails, [alloc] returns the
    host allocator's status, requests no device allocation or view and
    leaves the device buffer as it was; the host buffer is cleared, so
    [numel() = rows() = cols() = 0]. *)
Theorem alloc_host_failure (ht dt : elem_type) (dev : UCL_Device)
    (a : allocator) (r c : nat) (w : world)
    (Hhost : host_result a <> UCL_SUCCESS) :
  let w' := exec (alloc ht dt dev a r c) w in
  eval (alloc ht dt dev a r c) w = host_result a /\
  numel w' = 0 /\ rows w' = 0 /\ cols w' = 0 /\ h_array (host w') = None /\
  device w' = device w /\
  new_events w w' = host_release w ++ [HostAllocFail].
Proof.
  unfold eval. replace (fst (alloc ht dt dev a r c w)) with
    (eval (alloc ht dt dev a r c) w) by reflexivity.
  alloc_cases; unfold eval, numel, rows, cols, new_events, host_release;
    cbn; try (exfalso; congruence);
    rewrite <-?app_assoc, ?drop_new; repeat split.
Qed.

(** C5 (counterexample): re-allocating an independently allocated matrix
    does not clear it first; when the host allocation fails the device
    storage of the first allocation is never freed. *)
Lemma realloc_keeps_first_device_storage :
  let w' := exec (alloc UCL_DOUBLE UCL_FLOAT gpu host_fail_alloc 4 4) w_indep in
  dev_frees (trace w') = 0 /\ heap w' !! 1%nat = Some (replicate 6 3%Z) /\
  d_store (device w') = D_OWNED 1.
Proof. vm_compute. repeat split. Qed.

(** C5 (amended): [alloc] performs no [clear()] of its own.  The prior
    host storage is released by the host allocation, before it; the prior
    device storage is released only after the new host allocation
    succeeded (by [device.alloc] or [device.view]); when the host
    allocation fails the device buffer keeps its prior storage. *)
Theorem alloc_release_order (ht dt : elem_type) (dev : UCL_Device)
    (a : allocator) (r c : nat) (w : world) :
  let w' := exec (alloc ht dt dev a r c) w in
  (host_result a = UCL_SUCCESS ->
     exists evs, new_events w w' =
       host_release w ++ [HostAlloc (next_block w)] ++ dev_release w ++ evs /\
       Forall (fun e => is_dev_free e = false /\ is_host_free e = false) evs) /\
  (host_result a <> UCL_SUCCESS ->
     new_events w w' = host_release w ++ [HostAllocFail] /\ device w' = device w).
Proof.
  alloc_cases; unfold new_events, host_release, dev_release; cbn;
    rewrite <-?app_assoc, ?drop_new;
    (split; intros H; [try (exfalso; congruence) | try (exfalso; congruence)]);
    first [ eexists; split; [reflexivity | repeat constructor]
          | split; reflexivity ].
Qed.

Ltac world_cases w :=
  destruct w as [hp nb tr [hr hc ha] [dr dc ds]];
  destruct ha as [hb|]; destruct ds as [|db|db].

(** C4: [clear()] issues no device free on a VIEW matrix and exactly one
    device free (of its own storage) on an INDEPENDENT matrix; the host
    storage it owns is always released, and the shape of both buffers is
    reset to zero with no disposition left. *)
Theorem clear_frees (w : world) :
  let w' := exec clear w in
  (disposition_of w = Some VIEW -> dev_frees (new_events w w') = 0) /\
  (disposition_of w = Some INDEPENDENT ->
     dev_frees (new_events w w') = 1 /\
     forall b, d_store (device w) = D_OWNED b -> heap w' !! b = None) /\
  host_frees (new_events w w') = length (host_release w) /\
  (forall b, h_array (host w) = Some b -> heap w' !! b = None) /\
  h_array (host w') = None /\
  numel w' = 0 /\ rows w' = 0 /\ cols w' = 0 /\
  d_rows (device w') = 0 /\ d_cols (device w') = 0 /\ disposition_of w' = None.
Proof.
  world_cases w; unfold clear, new_events, host_release, disposition_of;
    run; rewrite <-?app_assoc, ?drop_new, ?drop_all;
    repeat split; intros; simplify_eq; try discriminate;
    rewrite ?lookup_delete_None; auto.
Qed.

(** C8: [clear()] is total (it returns normally on every state) and
    idempotent: a second [clear()] changes nothing, [numel() = 0] after
    either, and on a never-allocated matrix it is a no-op. *)
Theorem clear_idempotent (w : world) :
  exec clear (exec clear w) = exec clear w /\
  eval clear w = tt /\ numel (exec clear w) = 0 /\
  numel (exec clear (exec clear w)) = 0 /\
  exec clear init_world = init_world /\ numel (exec clear init_world) = 0.
Proof.
  world_cases w; unfold clear; run; rewrite ?app_nil_r; repeat split.
Qed.

(** The VIEW matrix of the scenario: 4x3 floats on a shared-memory device. *)
Definition w_view : world := exec (alloc UCL_FLOAT UCL_FLOAT apu ok_alloc 4 3) init_world.

(** Number of zeroing writes a trace makes to block [b]. *)
Definition zero_writes (b : nat) (t : list event) : nat :=
  length (List.filter (fun e => match e with
                                | Zero b' _ => Nat.eqb b b'
                                | _ => false end) t).

(** C3 (counterexample): [zero()] on the VIEW matrix writes the shared
    block twice, once through the host and once through the device. *)
Lemma zero_view_twice :
  disposition_of w_view = Some VIEW /\
  new_events w_view (exec zero w_view) = [Zero 0 12; Zero 0 12] /\
  zero_writes 0 (new_events w_view (exec zero w_view)) = 2 /\
  zero_writes 0 (new_events w_view (exec zero w_view)) <> 1.
Proof. vm_compute. repeat split. discriminate. Qed.

(** C3 (amended): on a VIEW matrix whose host storage [b] is live,
    [zero()] zeroes the shared storage twice, [host.zero()] then
    [device.zero()] (the second write finds it already zero); the storage
    ends all zero. *)
Theorem zero_view (w : world) (b : nat) (l : list Z)
    (Hview : d_store (device w) = D_VIEWED b)
    (Hhost : h_array (host w) = Some b)
    (Hshape : d_rows (device w) = h_rows (host w) /\ d_cols (device w) = h_cols (host w))
    (Hlive : heap w !! b = Some l) (Hlen : length l = numel w) :
  let w' := exec zero w in
  new_events w w' = [Zero b (numel w); Zero b (numel w)] /\
  zero_writes b (new_events w w') = 2 /\
  heap w' !! b = Some (replicate (numel w) 0%Z).
Proof.
  destruct w as [hp nb tr [hr hc ha] [dr dc ds]]; cbn in *; subst.
  destruct Hshape as [-> ->].
  unfold zero, numel, new_events in *; run; rewrite Hlive; cbn.
  rewrite lookup_insert_eq; cbn.
  rewrite <-app_assoc, drop_new, lookup_insert_eq; cbn.
  rewrite Nat.eqb_refl. repeat split.
  unfold zero_prefix. rewrite Hlen, Nat.min_id, (drop_ge l) by lia.
  rewrite app_nil_r, length_replicate, Nat.min_id.
  rewrite drop_ge by (rewrite length_replicate; lia).
  by rewrite app_nil_r.
Qed.

(** An allocated matrix: both buffers hold live storage of [numel()]
    elements and the device shape is the host shape. *)
Definition allocated (w : world) : bool :=
  match h_array (host w), d_block (device w) with
  | Some hb, Some db =>
      match heap w !! hb, heap w !! db with
      | Some lh, Some ld =>
          Nat.eqb (length lh) (numel w) && Nat.eqb (length ld) (numel w) &&
          Nat.eqb (d_rows (device w)) (h_rows (host w)) &&
          Nat.eqb (d_cols (device w)) (h_cols (host w))
      | _, _ => false
      end
  | _, _ => false
  end.

Lemma allocated_spec (w : world) :
  allocated w = true ->
  exists hb db lh ld,
    h_array (host w) = Some hb /\ d_block (device w) = Some db /\
    heap w !! hb = Some lh /\ heap w !! db = Some ld /\
    length lh = numel w /\ length ld = numel w /\
    d_rows (device w) = h_rows (host w) /\ d_cols (device w) = h_cols (host w).
Proof.
  unfold allocated.
  destruct (h_array (host w)) as [hb|]; [|discriminate].
  destruct (d_block (device w)) as [db|]; [|discriminate].
  destruct (heap w !! hb) as [lh|] eqn:E1; [|discriminate].
  destruct (heap w !! db) as [ld|] eqn:E2; [|discriminate].
  intros H. repeat (apply andb_prop in H as [H ?]).
  repeat match goal with Hb : Nat.eqb _ _ = true |- _ => apply Nat.eqb_eq in Hb end.
  exists hb, db, lh, ld. auto 10.
Qed.

Lemma length_zero_prefix (n : nat) (l : list Z) :
  length (zero_prefix n l) = length l.
Proof.
  unfold zero_prefix. rewrite length_app, length_replicate, length_drop. lia.
Qed.

Lemma zero_prefix_lt (n i : nat) (l : list Z) :
  (i < n)%nat -> (i < length l)%nat -> zero_prefix n l !! i = Some 0%Z.
Proof.
  intros Hn Hl. unfold zero_prefix.
  rewrite lookup_app_l by (rewrite length_replicate; lia).
  apply lookup_replicate. split; [done | lia].
Qed.

Lemma zero_prefix_ge (n i : nat) (l : list Z) :
  (n <= i)%nat -> zero_prefix n l !! i = l !! i.
Proof.
  intros Hn. unfold zero_prefix.
  destruct (decide (n <= length l)%nat).
  - rewrite lookup_app_r by (rewrite length_replicate; lia).
    rewrite length_replicate, lookup_drop. f_equal. lia.
  - rewrite drop_ge, app_nil_r by lia.
    rewrite (proj1 (lookup_replicate_None _ _ _)) by lia.
    symmetry. apply lookup_ge_None. lia.
Qed.

(** [zero_block] writes only block [b] and touches neither buffer. *)
Lemma zero_block_lookup (b n j : nat) (w : world) :
  heap (exec (zero_block b n) w) !! j =
    (if decide (j = b) then zero_prefix n <$> heap w !! b else heap w !! j).
Proof.
  unfold exec, zero_block. destruct (heap w !! b) as [l|] eqn:E; cbn;
    destruct (decide (j = b)); subst; rewrite ?E; cbn; try done.
  - by rewrite lookup_insert_eq.
  - by rewrite lookup_insert_ne.
Qed.

Lemma zero_block_members (b n : nat) (w : world) :
  host (exec (zero_block b n) w) = host w /\ device (exec (zero_block b n) w) = device w.
Proof. unfold exec, zero_block. by destruct (heap w !! b). Qed.


(** [zero(n)] and [zero()] on an allocated matrix are two block writes. *)
Lemma zero_n_exec (w : world) (n : Z) (hb db : nat) :
  h_array (host w) = Some hb -> d_block (device w) = Some db ->
  exec (zero_n n) w =
    exec (zero_block db (Z.to_nat n)) (exec (zero_block hb (Z.to_nat n)) w).
Proof.
  intros Hh Hd. unfold zero_n, host_zero_n, dev_zero_n.
  unfold exec at 1, mbind, M_bind, gets. cbn. rewrite Hh.
  pose proof (zero_block_members hb (Z.to_nat n) w) as [_ Hdev].
  unfold exec in Hdev |- *. destruct (zero_block hb (Z.to_nat n) w) as [[] w1].
  cbn in *. by rewrite Hdev, Hd.
Qed.

Lemma zero_exec (w : world) (hb db : nat) :
  h_array (host w) = Some hb -> d_block (device w) = Some db ->
  exec zero w =
    exec (zero_block db (d_rows (device w) * d_cols (device w)))
      (exec (zero_block hb (numel w)) w).
Proof.
  intros Hh Hd. unfold zero, host_zero, dev_zero.
  unfold exec at 1, mbind, M_bind, gets. cbn. rewrite Hh.
  pose proof (zero_block_members hb (numel w) w) as [_ Hdev].
  unfold exec, numel in Hdev |- *.
  destruct (zero_block hb (h_rows (host w) * h_cols (host w)) w) as [[] w1].
  cbn in *. by rewrite Hdev, Hd.
Qed.

Lemma zero_prefix_read (k i : nat) (l : list Z) :
  zero_prefix k l !! i =
    (if Nat.ltb i k then (if Nat.ltb i (length l) then Some 0%Z else None) else l !! i).
Proof.
  destruct (Nat.ltb_spec i k).
  - destruct (Nat.ltb_spec i (length l)).
    + by apply zero_prefix_lt.
    + apply lookup_ge_None. rewrite length_zero_prefix. lia.
  - by apply zero_prefix_ge.
Qed.

(** Reading a block written by the host zeroing and then by the device
    zeroing (the same block twice, or each block once). *)
Lemma two_writes_read (w : world) (hb db k j i : nat) (l : list Z) :
  heap w !! j = Some l -> j = hb \/ j = db ->
  heap (exec (zero_block db k) (exec (zero_block hb k) w)) !! j ≫= (fun l' => l' !! i) =
    (if Nat.ltb i k then (if Nat.ltb i (length l) then Some 0%Z else None) else l !! i).
Proof.
  intros Hl Hj. rewrite !zero_block_lookup.
  assert (Hfin : forall twice : bool,
    (if twice then zero_prefix k <$> (zero_prefix k <$> Some l)
     else zero_prefix k <$> Some l) ≫= (fun l' => l' !! i) =
    (if Nat.ltb i k then (if Nat.ltb i (length l) then Some 0%Z else None) else l !! i)).
  { intros []; cbn [fmap option_fmap option_map mbind option_bind].
    - rewrite zero_prefix_read, length_zero_prefix, zero_prefix_read.
      by destruct (Nat.ltb i k).
    - apply zero_prefix_read. }
  destruct Hj as [->| ->].
  - destruct (decide (hb = db)) as [<-|E].
    + rewrite decide_True, Hl by done. apply (Hfin true).
    + rewrite decide_True, Hl by done. apply (Hfin false).
  - rewrite decide_True by done. destruct (decide (db = hb)) as [->|E].
    + rewrite Hl. apply (Hfin true).
    + rewrite Hl. apply (Hfin false).
Qed.

Lemma host_at_read (w : world) (hb : nat) (i : Z) :
  (0 <= i)%Z -> h_array (host w) = Some hb ->
  host_at i w = heap w !! hb ≫= (fun l => l !! Z.to_nat i).
Proof.
  intros Hi Hh. unfold host_at. rewrite Hh.
  destruct (heap w !! hb); cbn; [|done].
  by rewrite (proj2 (Z.ltb_ge i 0) Hi).
Qed.

Lemma dev_at_read (w : world) (db : nat) (i : Z) :
  (0 <= i)%Z -> d_block (device w) = Some db ->
  dev_at i w = heap w !! db ≫= (fun l => l !! Z.to_nat i).
Proof.
  intros Hi Hd. unfold dev_at. rewrite Hd.
  destruct (heap w !! db); cbn; [|done].
  by rewrite (proj2 (Z.ltb_ge i 0) Hi).
Qed.

Lemma two_writes_members (w : world) (hb db k1 k2 : nat) :
  let w' := exec (zero_block db k2) (exec (zero_block hb k1) w) in
  host w' = host w /\ device w' = device w.
Proof.
  cbn. destruct (zero_block_members hb k1 w) as [H1 D1].
  destruct (zero_block_members db k2 (exec (zero_block hb k1) w)) as [H2 D2].
  by rewrite H2, D2, H1, D1.
Qed.

(** C9: on an allocated matrix, for [0 <= n < numel()], [zero(n)] sets the
    elements [0, n) of the host and of the device storage to zero and
    leaves the elements [n, numel()) unchanged; [zero()] sets every element
    in [0, numel()), read through [operator[]] and through the device, to
    zero. *)
Theorem zero_n_frame (w : world) (n : Z)
    (Halloc : allocated w = true) (Hn : (0 <= n < Z.of_nat (numel w))%Z) :
  (let w' := exec (zero_n n) w in
   (forall i, (0 <= i < n)%Z -> op_index i w' = Some 0%Z /\ dev_at i w' = Some 0%Z) /\
   (forall i, (n <= i < Z.of_nat (numel w))%Z ->
      op_index i w' = op_index i w /\ dev_at i w' = dev_at i w)) /\
  (forall i, (0 <= i < Z.of_nat (numel w))%Z ->
     op_index i (exec zero w) = Some 0%Z /\ dev_at i (exec zero w) = Some 0%Z).
Proof.
  destruct (allocated_spec w Halloc)
    as (hb & db & lh & ld & Hh & Hd & Elh & Eld & Llh & Lld & Hr & Hc).
  unfold op_index.
  rewrite (zero_n_exec w n hb db Hh Hd), (zero_exec w hb db Hh Hd), Hr, Hc.
  fold (numel w).
  destruct (two_writes_members w hb db (Z.to_nat n) (Z.to_nat n)) as [Mh Md].
  destruct (two_writes_members w hb db (numel w) (numel w)) as [Mh' Md'].
  cbn zeta in *.
  split; [split|]; intros i Hi.
  - rewrite !host_at_read with (hb := hb), !dev_at_read with (db := db)
      by (rewrite ?Mh, ?Md; done || lia).
    rewrite (two_writes_read w hb db _ hb _ lh), (two_writes_read w hb db _ db _ ld)
      by auto.
    rewrite Llh, Lld. split;
    (repeat rewrite (proj2 (Nat.ltb_lt _ _)) by lia; done).
  - rewrite !host_at_read with (hb := hb), !dev_at_read with (db := db)
      by (rewrite ?Mh, ?Md; done || lia).
    rewrite (two_writes_read w hb db _ hb _ lh), (two_writes_read w hb db _ db _ ld)
      by auto.
    rewrite (proj2 (Nat.ltb_ge _ _)) by lia.
    rewrite Elh, Eld. done.
  - rewrite !host_at_read with (hb := hb), !dev_at_read with (db := db)
      by (rewrite ?Mh', ?Md'; done || lia).
    rewrite (two_writes_read w hb db _ hb _ lh), (two_writes_read w hb db _ db _ ld)
      by auto.
    rewrite Llh, Lld. split;
    (repeat rewrite (proj2 (Nat.ltb_lt _ _)) by lia; done).
Qed.

Lemma to_size_small (z : Z) : (0 <= z < 2 ^ 64)%Z -> to_size z = z.
Proof. intros H. unfold to_size. by apply Z.mod_small. Qed.

Lemma to_int_small (z : Z) : (0 <= z <= INT_MAX)%Z -> to_int z = z.
Proof.
  intros H. unfold to_int, INT_MAX in *.
  rewrite Z.mod_small by lia. lia.
Qed.

(** A 65536 x 65536 matrix viewed on the device; its 2^32 elements are
    never computed. *)
Definition big_n : nat := Z.to_nat 65536.
Definition w_big : world :=
  mkWorld (<[0%nat := replicate (big_n * big_n) 0%Z]> ∅) 1 []
    (mkH big_n big_n (Some 0%nat)) (mkD big_n big_n (D_VIEWED 0)).

(** C10 (counterexample): in a 65536 x 65536 matrix, [m(32768, 0)] is
    in bounds, but its index [32768*65536 + 0 = 2^31] converted to the
    [int] parameter of [host[]] is [-2^31]: it reads nothing, while the
    element at flat position [2^31] exists. *)
Lemma op_call_index_overflow :
  (0 <= 32768 < Z.of_nat (rows w_big))%Z /\ (0 <= 0 < Z.of_nat (cols w_big))%Z /\
  heap w_big !! 0%nat = Some (replicate (numel w_big) 0%Z) /\
  d_store (device w_big) = D_VIEWED 0 /\
  op_call 32768 0 w_big = None /\
  op_index (32768 * Z.of_nat (cols w_big) + 0) w_big = Some 0%Z.
Proof.
  assert (Hn : Z.of_nat big_n = 65536%Z) by (unfold big_n; lia).
  unfold rows, cols, numel, op_call, op_index, host_at, w_big.
  cbn [heap host device h_rows h_cols h_array d_store].
  rewrite Hn, lookup_insert_eq. cbn [mbind option_bind].
  split; [lia|]. split; [lia|]. split; [reflexivity|]. split; [reflexivity|].
  split.
  - replace (to_int (to_size (to_size 32768 * 65536 + to_size 0)))
      with (- 2 ^ 31)%Z by (vm_compute; reflexivity). reflexivity.
  - replace (32768 * 65536 + 0)%Z with (2 ^ 31)%Z by reflexivity.
    replace (Z.ltb (2 ^ 31) 0) with false by reflexivity.
    apply lookup_replicate_2. unfold big_n.
    rewrite <- Z2Nat.inj_mul by lia. apply Z2Nat.inj_lt; lia.
Qed.

(** C10 (corrected): for [0 <= row < rows()] and [0 <= col < cols()]
    whose flat index [row*cols() + col] fits an [int], [m(row, col)]
    reads the same host element as [m[row*cols() + col]]; in particular
    [m(0, col)] is [m[col]]. *)
Theorem op_call_row_major (w : world) (row col : Z)
    (Hrow : (0 <= row < Z.of_nat (rows w))%Z)
    (Hcol : (0 <= col < Z.of_nat (cols w))%Z)
    (Hint : (row * Z.of_nat (cols w) + col <= INT_MAX)%Z) :
  op_call row col w = op_index (row * Z.of_nat (cols w) + col) w /\
  op_call 0 col w = op_index col w.
Proof.
  unfold op_call, op_index, numel, rows, cols in *.
  set (C := Z.of_nat (h_cols (host w))) in *.
  assert (HI : (INT_MAX < 2 ^ 64)%Z) by (unfold INT_MAX; lia).
  assert (Hr : (row <= row * C)%Z) by nia.
  rewrite (to_size_small row), (to_size_small col) by lia.
  rewrite to_size_small by lia. rewrite to_int_small by lia.
  split; [reflexivity|].
  rewrite (to_size_small 0) by lia.
  rewrite Z.mul_0_l, Z.add_0_l, to_size_small, to_int_small by lia.
  reflexivity.
Qed.

(* ------------------------------------------------------------------ *)
(** ** The theorems at concrete inputs *)


Lemma alloc_shape_witness :
  eval (alloc UCL_DOUBLE UCL_FLOAT gpu ok_alloc 4 3) init_world = UCL_SUCCESS /\
  numel (exec (alloc UCL_DOUBLE UCL_FLOAT gpu ok_alloc 4 3) init_world) = 12%nat.
Proof.
  split; [reflexivity|].
  apply (alloc_shape UCL_DOUBLE UCL_FLOAT gpu ok_alloc 4 3 init_world
           ltac:(reflexivity)).
Defined.

Lemma alloc_device_failure_witness :
  host_result dev_fail_alloc = UCL_SUCCESS /\
  device_result dev_fail_alloc <> UCL_SUCCESS /\
  ~ (UCL_DOUBLE = UCL_FLOAT /\ shared_memory gpu = true) /\
  numel (exec (alloc UCL_DOUBLE UCL_FLOAT gpu dev_fail_alloc 2 3) init_world) = 6%nat.
Proof.
  split; [reflexivity|]. split; [discriminate|].
  split; [intros [H _]; discriminate|].
  apply (alloc_device_failure UCL_DOUBLE UCL_FLOAT gpu dev_fail_alloc 2 3 init_world
           ltac:(reflexivity) ltac:(discriminate) ltac:(intros [H _]; discriminate)).
Defined.

Lemma alloc_host_failure_witness :
  host_result host_fail_alloc <> UCL_SUCCESS /\
  device (exec (alloc UCL_DOUBLE UCL_FLOAT gpu host_fail_alloc 4 4) w_indep) =
    device w_indep.
Proof.
  split; [discriminate|].
  apply (alloc_host_failure UCL_DOUBLE UCL_FLOAT gpu host_fail_alloc 4 4 w_indep
           ltac:(discriminate)).
Defined.

Lemma zero_view_witness :
  d_store (device w_view) = D_VIEWED 0 /\ h_array (host w_view) = Some 0%nat /\
  heap w_view !! 0%nat = Some (replicate 12 3%Z) /\
  zero_writes 0 (new_events w_view (exec zero w_view)) = 2%nat.
Proof.
  split; [reflexivity|]. split; [reflexivity|]. split; [reflexivity|].
  apply (zero_view w_view 0 (replicate 12 3%Z) ltac:(reflexivity) ltac:(reflexivity)
           ltac:(split; reflexivity) ltac:(reflexivity) ltac:(reflexivity)).
Defined.

Lemma zero_n_frame_witness :
  allocated w_indep = true /\ (0 <= 2 < Z.of_nat (numel w_indep))%Z /\
  op_index 1 (exec (zero_n 2) w_indep) = Some 0%Z /\
  op_index 4 (exec (zero_n 2) w_indep) = op_index 4 w_indep.
Proof.
  assert (Ha : allocated w_indep = true) by reflexivity.
  assert (Hn : (0 <= 2 < Z.of_nat (numel w_indep))%Z) by (vm_compute; split; congruence).
  destruct (zero_n_frame w_indep 2 Ha Hn) as [[Hlo Hhi] _].
  split; [exact Ha|]. split; [exact Hn|]. split.
  - apply (Hlo 1%Z). lia.
  - apply (Hhi 4%Z). vm_compute. split; congruence.
Defined.

Lemma op_call_row_major_witness :
  (0 <= 1 < Z.of_nat (rows w_indep))%Z /\ (0 <= 2 < Z.of_nat (cols w_indep))%Z /\
  (1 * Z.of_nat (cols w_indep) + 2 <= INT_MAX)%Z /\
  op_call 1 2 w_indep = op_index 5 w_indep.
Proof.
  assert (H1 : (0 <= 1 < Z.of_nat (rows w_indep))%Z) by (vm_compute; split; congruence).
  assert (H2 : (0 <= 2 < Z.of_nat (cols w_indep))%Z) by (vm_compute; split; congruence).
  assert (H3 : (1 * Z.of_nat (cols w_indep) + 2 <= INT_MAX)%Z) by (vm_compute; congruence).
  split; [exact H1|]. split; [exact H2|]. split; [exact H3|].
  apply (proj1 (op_call_row_major w_indep 1 2 H1 H2 H3)).
Defined.

(* ------------------------------------------------------------------ *)
(** ** The sized constructor, writes through the accessors, and the
       storage invariant *)

(** [UCL_Matrix(rows, cols, device, kind1, kind2)]:
    [host.alloc(rows,cols,device,kind1);
     if (ucl_same_type<hosttype,devtype>::ans && device.shared_memory())
       device.view(host);
     else
       device.alloc(rows,cols,device,kind2);]
    The status of [host.alloc] is not looked at.  The parameter
    [UCL_Device &device] shadows the member throughout the body, so the
    three [device.] calls are made on the argument [dev] (as in
    [alloc_dev]) and the member device buffer keeps its default (empty)
    state; the status of the argument's [alloc] is discarded. *)
Definition UCL_Matrix_ctor (hosttype devtype : elem_type) (dev : UCL_Device)
    (a : allocator) (rows cols : nat) : M unit :=
  host_alloc rows cols a ;;
  if ucl_same_type hosttype devtype && shared_memory dev then emit ArgView
  else emit (ArgAlloc rows cols).

(** Modelled from the spec: writing [v] through the reference returned by
    [host[i]] ([UCL_H_Mat::operator[]]), as [m[i] = v] does. *)
Definition host_set (i : Z) (v : Z) : M unit :=
  fun w =>
    match h_array (host w) with
    | Some b =>
        match heap w !! b with
        | Some l => if Z.ltb i 0 then (tt, w)
                    else (tt, set_heap (<[b := <[Z.to_nat i := v]> l]> (heap w)) w)
        | None => (tt, w)
        end
    | None => (tt, w)
    end.

(** [m[i] = v]: [operator[](i)] returns [host[i]]. *)
Definition op_index_set (i v : Z) : M unit := host_set i v.

(** [m(row, col) = v]: [operator()(row, col)] returns [host[row*_cols+col]]. *)
Definition op_call_set (row col v : Z) : M unit :=
  fun w => host_set (to_int (to_size (to_size row * Z.of_nat (h_cols (host w))
                                       + to_size col))) v w.

(** The operations of the class, and runs of them on one matrix. *)
Inductive op :=
  | OpAlloc (ht dt : elem_type) (dev : UCL_Device) (a : allocator) (rows cols : nat)
  | OpAllocDev (ht dt : elem_type) (dev : UCL_Device) (a : allocator) (arg_status : Z)
      (rows cols : nat)
  | OpClear
  | OpZero
  | OpZeroN (n : Z)
  | OpSet (row col v : Z).

Definition run_op (o : op) : M unit :=
  match o with
  | OpAlloc ht dt dev a r c => alloc ht dt dev a r c ;; mret tt
  | OpAllocDev ht dt dev a s r c => alloc_dev ht dt dev a s r c ;; mret tt
  | OpClear => clear
  | OpZero => zero
  | OpZeroN n => zero_n n
  | OpSet row col v => op_call_set row col v
  end.

Fixpoint run_ops (os : list op) : M unit :=
  match os with
  | [] => mret tt
  | o :: os' => run_op o ;; run_ops os'
  end.

(** The storage the matrix owns: its host block and an owned device block
    (a view owns nothing). *)
Definition owns (w : world) (b : nat) : Prop :=
  h_array (host w) = Some b \/ d_store (device w) = D_OWNED b.

(** The heap holds exactly the storage the matrix owns, the two blocks are
    distinct, and both were handed out by the allocator. *)
Definition storage_ok (w : world) : Prop :=
  (forall b, is_Some (heap w !! b) <-> owns w b) /\
  (forall b, owns w b -> (b < next_block w)%nat) /\
  (forall b, h_array (host w) = Some b -> d_store (device w) <> D_OWNED b).

#[local] Hint Unfold UCL_Matrix_ctor alloc_dev : ucl.


(** The sized constructor never binds the member device buffer: it stays
    empty (no storage, 0 x 0, neither VIEW nor INDEPENDENT), and the only
    calls made besides the host allocation are the [view] or [alloc] of the
    [UCL_Device] argument, made even when the host allocation failed.  The
    host buffer gets its [rows x cols] storage when its allocation
    succeeds. *)
Theorem ctor_device_unbound (ht dt : elem_type) (dev : UCL_Device)
    (a : allocator) (r c : nat) :
  let w' := exec (UCL_Matrix_ctor ht dt dev a r c) init_world in
  device w' = d_empty /\ disposition_of w' = None /\
  new_events init_world w' =
    [(if Z.eqb (host_result a) UCL_SUCCESS then HostAlloc 0 else HostAllocFail);
     (if ucl_same_type ht dt && shared_memory dev then ArgView else ArgAlloc r c)] /\
  (host_result a = UCL_SUCCESS ->
     numel w' = (r * c)%nat /\ heap w' !! 0%nat = Some (replicate (r * c) (fresh_fill a))).
Proof.
  unfold init_world, new_events. run.
  destruct (Z.eqb (host_result a) UCL_SUCCESS) eqn:Hh; cbn; eqb_hyp Hh;
    destruct (ucl_same_type ht dt && shared_memory dev); cbn;
    (split; [reflexivity|]); (split; [reflexivity|]); (split; [reflexivity|]);
    intros H; try congruence.
  all: split; [reflexivity | by rewrite lookup_insert_eq].
Qed.

(** [alloc] reports [UCL_SUCCESS] exactly when the host allocation succeeds
    and the device side is a view or its allocation succeeds; otherwise it
    reports the failing allocator's status. *)
Theorem alloc_status (ht dt : elem_type) (dev : UCL_Device)
    (a : allocator) (r c : nat) (w : world) :
  let e := eval (alloc ht dt dev a r c) w in
  (e = UCL_SUCCESS <->
     host_result a = UCL_SUCCESS /\
     ((ht = dt /\ shared_memory dev = true) \/ device_result a = UCL_SUCCESS)) /\
  (host_result a <> UCL_SUCCESS -> e = host_result a) /\
  (host_result a = UCL_SUCCESS -> ~ (ht = dt /\ shared_memory dev = true) ->
     e = device_result a).
Proof.
  unfold eval. replace (fst (alloc ht dt dev a r c w)) with
    (eval (alloc ht dt dev a r c) w) by reflexivity.
  alloc_cases; unfold eval; cbn;
    repeat split; intros; try tauto; try congruence; naive_solver.
Qed.

Lemma exec_bind {A B} (m : M A) (k : A -> M B) (w : world) :
  exec (m ≫= k) w = exec (k (eval m w)) (exec m w).
Proof. unfold exec, eval, mbind, M_bind. by destruct (m w). Qed.

Lemma exec_ret {A} (x : A) (w : world) : exec (mret x) w = w.
Proof. reflexivity. Qed.

(** Preprocess a [storage_ok] goal on an explicit world. *)
Ltac storage_intro :=
  let H1 := fresh "Hdom" in let H2 := fresh "Hfresh" in let H3 := fresh "Hdisj" in
  intros (H1 & H2 & H3); unfold storage_ok, owns in *; cbn in *.

Lemma host_clear_ok (w : world) : storage_ok w -> storage_ok (exec host_clear w).
Proof.
  destruct w as [hp nb tr [hr hc [hb|]] [dr dc ds]]; storage_intro; run;
    (split; [|split]); intros b; try intros Hb; try split; try intros Hb.
  - rewrite lookup_delete_is_Some, Hdom in Hb. naive_solver.
  - destruct Hb as [Hb|Hb]; [discriminate|].
    rewrite lookup_delete_is_Some, Hdom. split; [|by right].
    intros ->. by apply (Hdisj b).
  - destruct Hb as [Hb|Hb]; [discriminate|]. apply Hfresh. by right.
  - discriminate.
  - rewrite Hdom in Hb. naive_solver.
  - by rewrite Hdom.
  - destruct Hb as [Hb|Hb]; [discriminate|]. apply Hfresh. by right.
  - discriminate.
Qed.

Lemma host_clear_empty (w : world) : h_array (host (exec host_clear w)) = None.
Proof. destruct w as [hp nb tr [hr hc [hb|]] [dr dc ds]]; reflexivity. Qed.

Lemma dev_clear_ok (w : world) : storage_ok w -> storage_ok (exec dev_clear w).
Proof.
  destruct w as [hp nb tr [hr hc ha] [dr dc [|db|db]]]; storage_intro; run;
    (split; [|split]); intros b; try intros Hb; try split; try intros Hb.
  all: try (rewrite lookup_delete_is_Some, Hdom in Hb; naive_solver).
  all: try (rewrite Hdom in Hb; naive_solver).
  all: try (rewrite ?lookup_delete_is_Some, Hdom; naive_solver).
  all: try (apply Hfresh; naive_solver).
  all: try discriminate.
Qed.

Lemma host_alloc_ok (r c : nat) (a : allocator) (w : world) :
  storage_ok w -> storage_ok (exec (host_alloc r c a) w).
Proof.
  intros Hw. unfold host_alloc. rewrite exec_bind.
  pose proof (host_clear_ok w Hw) as Hw1. pose proof (host_clear_empty w) as He.
  destruct (exec host_clear w) as [hp nb tr [hr hc ha] [dr dc ds]]; cbn in He; subst ha.
  revert Hw1. destruct (Z.eqb (host_result a) UCL_SUCCESS); storage_intro; run;
    [|exact (conj Hdom (conj Hfresh Hdisj))].
  split; [|split]; intros b; try intros Hb; try split; try intros Hb.
  - rewrite lookup_insert_is_Some, Hdom in Hb. naive_solver.
  - rewrite lookup_insert_is_Some, Hdom.
    destruct (decide (nb = b)); [by left|right]. naive_solver.
  - destruct Hb as [Hb|Hb]; [injection Hb; lia|].
    assert (b < nb)%nat by (apply Hfresh; by right). lia.
  - injection Hb as <-. intros Hd.
    assert (nb < nb)%nat by (apply Hfresh; by right). lia.
Qed.

Lemma dev_clear_empty (w : world) : d_store (device (exec dev_clear w)) = D_NONE.
Proof. destruct w as [hp nb tr [hr hc ha] [dr dc [|db|db]]]; reflexivity. Qed.

Lemma dev_view_ok (w : world) : storage_ok w -> storage_ok (exec dev_view w).
Proof.
  intros Hw. unfold dev_view. rewrite exec_bind.
  pose proof (dev_clear_ok w Hw) as Hw1. pose proof (dev_clear_empty w) as He.
  destruct (exec dev_clear w) as [hp nb tr [hr hc ha] [dr dc ds]]; cbn in He; subst ds.
  revert Hw1. destruct ha as [hb|]; storage_intro; run;
    (split; [|split]); intros b; try intros Hb; try split; try intros Hb.
  all: try (rewrite Hdom in Hb; naive_solver).
  all: try (rewrite Hdom; naive_solver).
  all: try (apply Hfresh; naive_solver).
  all: discriminate.
Qed.

Lemma dev_alloc_ok (r c : nat) (a : allocator) (w : world) :
  storage_ok w -> storage_ok (exec (dev_alloc r c a) w).
Proof.
  intros Hw. unfold dev_alloc. rewrite exec_bind.
  pose proof (dev_clear_ok w Hw) as Hw1. pose proof (dev_clear_empty w) as He.
  destruct (exec dev_clear w) as [hp nb tr [hr hc ha] [dr dc ds]]; cbn in He; subst ds.
  revert Hw1. destruct (Z.eqb (device_result a) UCL_SUCCESS); storage_intro; run;
    [|exact (conj Hdom (conj Hfresh Hdisj))].
  split; [|split]; intros b; try intros Hb; try split; try intros Hb.
  - rewrite lookup_insert_is_Some, Hdom in Hb. naive_solver.
  - rewrite lookup_insert_is_Some, Hdom.
    destruct (decide (nb = b)); [by left|right]. naive_solver.
  - destruct Hb as [Hb|Hb]; [|injection Hb; lia].
    assert (b < nb)%nat by (apply Hfresh; by left). lia.
  - intros Hd. injection Hd as <-.
    assert (nb < nb)%nat by (apply Hfresh; by left). lia.
Qed.

Lemma zero_block_ok (b n : nat) (w : world) :
  storage_ok w -> storage_ok (exec (zero_block b n) w).
Proof.
  unfold exec, zero_block. destruct (heap w !! b) as [l|] eqn:El; [|done].
  destruct w as [hp nb tr h d]; storage_intro.
  split; [|split]; [|done|done]. intros b'.
  rewrite lookup_insert_is_Some, <-Hdom.
  destruct (decide (b = b')) as [<-|]; [rewrite El|]; naive_solver.
Qed.

Lemma host_set_ok (i v : Z) (w : world) :
  storage_ok w -> storage_ok (exec (host_set i v) w).
Proof.
  unfold exec, host_set.
  destruct (h_array (host w)) as [b|]; [|done].
  destruct (heap w !! b) as [l|] eqn:El; [|done].
  destruct (Z.ltb i 0); [done|].
  destruct w as [hp nb tr h d]; storage_intro.
  split; [|split]; [|done|done]. intros b'.
  rewrite lookup_insert_is_Some, <-Hdom.
  destruct (decide (b = b')) as [<-|]; [rewrite El|]; naive_solver.
Qed.

Lemma exec_gets {A B} (f : world -> A) (k : A -> M B) (w : world) :
  exec (gets f ≫= k) w = exec (k (f w)) w.
Proof. reflexivity. Qed.

Lemma alloc_ok (ht dt : elem_type) (dev : UCL_Device) (a : allocator)
    (r c : nat) (w : world) :
  storage_ok w -> storage_ok (exec (alloc ht dt dev a r c) w).
Proof.
  intros Hw. unfold alloc. rewrite exec_bind.
  pose proof (host_alloc_ok r c a w Hw) as Hw1.
  destruct (negb _); [exact Hw1|].
  destruct (_ && _); rewrite ?exec_bind.
  - by apply dev_view_ok.
  - by apply dev_alloc_ok.
Qed.

Lemma emit_ok (e : event) (w : world) : storage_ok w -> storage_ok (exec (emit e) w).
Proof. by destruct w. Qed.

Lemma alloc_dev_ok (ht dt : elem_type) (dev : UCL_Device) (a : allocator)
    (s : Z) (r c : nat) (w : world) :
  storage_ok w -> storage_ok (exec (alloc_dev ht dt dev a s r c) w).
Proof.
  intros Hw. unfold alloc_dev. rewrite exec_bind.
  pose proof (host_alloc_ok r c a w Hw) as Hw1.
  destruct (negb _); [exact Hw1|].
  destruct (_ && _); rewrite exec_bind, exec_ret; by apply emit_ok.
Qed.

Lemma clear_ok (w : world) : storage_ok w -> storage_ok (exec clear w).
Proof.
  intros Hw. unfold clear. rewrite exec_bind.
  apply dev_clear_ok, host_clear_ok, Hw.
Qed.

Lemma zero_block_opt_ok (ob : option nat) (n : nat) (w : world) :
  storage_ok w ->
  storage_ok (exec (match ob with Some b => zero_block b n | None => mret tt end) w).
Proof. destruct ob; [apply zero_block_ok | done]. Qed.

Lemma zero_ok (w : world) : storage_ok w -> storage_ok (exec zero w).
Proof.
  intros Hw. unfold zero, host_zero, dev_zero.
  rewrite exec_bind, !exec_gets. by do 2 apply zero_block_opt_ok.
Qed.

Lemma zero_n_ok (n : Z) (w : world) : storage_ok w -> storage_ok (exec (zero_n n) w).
Proof.
  intros Hw. unfold zero_n, host_zero_n, dev_zero_n.
  rewrite exec_bind, !exec_gets. by do 2 apply zero_block_opt_ok.
Qed.

Lemma run_op_ok (o : op) (w : world) : storage_ok w -> storage_ok (exec (run_op o) w).
Proof.
  destruct o; cbn [run_op]; intros Hw.
  - rewrite exec_bind. by apply alloc_ok.
  - rewrite exec_bind. by apply alloc_dev_ok.
  - by apply clear_ok.
  - by apply zero_ok.
  - by apply zero_n_ok.
  - unfold op_call_set, exec. apply (host_set_ok _ v w Hw).
Qed.

Lemma init_ok : storage_ok init_world.
Proof.
  unfold storage_ok, owns, init_world; cbn.
  split; [|split]; intros b; try split; intros H; try discriminate.
  - by destruct H.
  - by destruct H.
  - by destruct H.
Qed.

(** Every operation keeps [storage_ok]. *)
Lemma run_ops_ok (os : list op) (w : world) :
  storage_ok w -> storage_ok (exec (run_ops os) w).
Proof.
  revert w. induction os as [|o os IH]; intros w Hw; cbn [run_ops]; [exact Hw|].
  rewrite exec_bind. apply IH, run_op_ok, Hw.
Qed.

(** Any run of the class's operations on a default-constructed matrix ([UCL_Matrix()])
    keeps the heap equal to the storage the matrix owns: an owned block is
    never lost (no leak), the host and device never own the same block, and
    a view never owns storage. *)
Theorem run_ops_storage_ok (os : list op) :
  storage_ok (exec (run_ops os) init_world).
Proof. apply run_ops_ok, init_ok. Qed.

Lemma clear_owns_nothing (w : world) (b : nat) : ~ owns (exec clear w) b.
Proof.
  world_cases w; unfold clear, owns; run; intros [H|H]; discriminate.
Qed.

Lemma clear_next (w : world) : next_block (exec clear w) = next_block w.
Proof. world_cases w; reflexivity. Qed.

(** On a matrix whose heap is the storage it owns, [clear()] leaves no
    live storage at all. *)
Lemma clear_heap_empty (w : world) (Hw : storage_ok w) :
  heap (exec clear w) = ∅.
Proof.
  destruct (clear_ok w Hw) as [Hdom _].
  apply map_eq. intros b. rewrite lookup_empty.
  destruct (heap (exec clear w) !! b) eqn:E; [|done].
  exfalso. apply (clear_owns_nothing w b), Hdom. by rewrite E.
Qed.

(** Whatever operations ran on a freshly constructed matrix, a final
    [clear()] leaves no storage allocated. *)
Theorem run_ops_clear_no_leak (os : list op) :
  heap (exec (run_ops os ;; clear) init_world) = ∅.
Proof.
  rewrite exec_bind. apply clear_heap_empty, run_ops_ok, init_ok.
Qed.

Lemma alloc_owns_fresh (ht dt : elem_type) (dev : UCL_Device) (a : allocator)
    (r c : nat) (w : world) (b : nat) :
  (forall b', ~ owns w b') -> (b < next_block w)%nat ->
  ~ owns (exec (alloc ht dt dev a r c) w) b.
Proof.
  intros Hno Hb. unfold owns in *.
  alloc_cases; cbn in *; intros [H|H]; simplify_eq; try lia.
  all: first [ eapply Hno; by left | eapply Hno; by right ].
Qed.

(** [clear()] followed by [alloc]: no storage of the first allocation is
    live or referenced afterwards, whether [alloc] succeeds or not. *)
Theorem clear_then_alloc (ht dt : elem_type) (dev : UCL_Device) (a : allocator)
    (r c : nat) (w : world) (Hw : storage_ok w) :
  let w1 := exec clear w in
  let w' := exec (alloc ht dt dev a r c) w1 in
  forall b, owns w b -> heap w' !! b = None /\ ~ owns w' b.
Proof.
  cbn zeta.
  - intros b Hb.
    assert (Hn : ~ owns (exec (alloc ht dt dev a r c) (exec clear w)) b).
    { apply alloc_owns_fresh; [apply clear_owns_nothing|].
      rewrite clear_next. apply (proj1 (proj2 Hw)), Hb. }
    split; [|exact Hn].
    destruct (alloc_ok ht dt dev a r c _ (clear_ok w Hw)) as [Hdom _].
    destruct (heap _ !! b) eqn:E; [|done].
    exfalso. apply Hn, Hdom. by rewrite E.
Qed.

Lemma call_index_small (row col R C : Z) :
  (0 <= row < R)%Z -> (0 <= col < C)%Z -> (R * C <= INT_MAX)%Z ->
  to_int (to_size (to_size row * C + to_size col)) = (row * C + col)%Z.
Proof.
  intros Hr Hc HI. unfold INT_MAX in HI.
  assert (HRC : (R <= R * C)%Z) by nia.
  assert (Hlt : (row * C + col < R * C)%Z) by nia.
  assert (H0 : (0 <= row * C)%Z) by nia.
  rewrite (to_size_small row), (to_size_small col) by lia.
  rewrite to_size_small by lia. apply to_int_small. unfold INT_MAX. lia.
Qed.

(** In a VIEW matrix, writing an element through [m(row, col)] is seen at
    once through the device side, with no copy. *)
Theorem view_write_visible (w : world) (b : nat) (l : list Z) (row col v : Z)
    (Hview : d_store (device w) = D_VIEWED b)
    (Hhost : h_array (host w) = Some b)
    (Hlive : heap w !! b = Some l) (Hlen : length l = numel w)
    (Hrow : (0 <= row < Z.of_nat (rows w))%Z)
    (Hcol : (0 <= col < Z.of_nat (cols w))%Z)
    (Hint : (Z.of_nat (numel w) <= INT_MAX)%Z) :
  let w' := exec (op_call_set row col v) w in
  dev_at (row * Z.of_nat (cols w) + col) w' = Some v /\
  op_call row col w' = Some v.
Proof.
  unfold numel, rows, cols in *. rewrite Nat2Z.inj_mul in Hint.
  unfold op_call_set, op_call, exec. cbn zeta.
  rewrite (call_index_small row col (Z.of_nat (h_rows (host w)))) by lia.
  assert (Hk : (Z.to_nat (row * Z.of_nat (h_cols (host w)) + col) < length l)%nat).
  { rewrite Hlen. nia. }
  unfold host_set. rewrite Hhost, Hlive.
  rewrite (proj2 (Z.ltb_ge _ 0)) by nia. cbn.
  unfold dev_at, host_at, d_block. cbn. rewrite Hview, Hhost, lookup_insert_eq. cbn.
  rewrite (call_index_small row col (Z.of_nat (h_rows (host w)))) by lia.
  rewrite (proj2 (Z.ltb_ge _ 0)) by nia.
  rewrite list_lookup_insert_eq by exact Hk. auto.
Qed.


Definition is_zero_event (e : event) : bool :=
  match e with Zero _ _ => true | _ => false end.

(** [w'] has the buffers, the live blocks and the allocator position of
    [w]; only block contents may differ, and the calls made in between are
    [memset]s. *)
Definition same_storage (w w' : world) : Prop :=
  host w' = host w /\ device w' = device w /\ next_block w' = next_block w /\
  (forall b, is_Some (heap w' !! b) <-> is_Some (heap w !! b)) /\
  exists es, trace w' = trace w ++ es /\ forallb is_zero_event es = true.

Lemma same_storage_refl (w : world) : same_storage w w.
Proof. repeat split; try done. exists []. by rewrite app_nil_r. Qed.

Lemma same_storage_trans (w1 w2 w3 : world) :
  same_storage w1 w2 -> same_storage w2 w3 -> same_storage w1 w3.
Proof.
  intros (H1 & D1 & N1 & K1 & es1 & T1 & Z1) (H2 & D2 & N2 & K2 & es2 & T2 & Z2).
  split; [congruence|]. split; [congruence|]. split; [congruence|].
  split; [intros b; by rewrite K2, K1|].
  exists (es1 ++ es2). rewrite T2, T1, app_assoc. split; [done|].
  by rewrite forallb_app, Z1, Z2.
Qed.

Lemma zero_block_opt_same (ob : option nat) (n : nat) (w : world) :
  same_storage w (exec (match ob with Some b => zero_block b n | None => mret tt end) w).
Proof.
  destruct ob as [b|]; [|apply same_storage_refl].
  unfold exec, zero_block. destruct (heap w !! b) as [l|] eqn:El;
    [|apply same_storage_refl].
  destruct w as [hp nb tr h d]; unfold set_trace, set_heap;
    cbn [snd heap host device next_block trace] in *.
  repeat split; try done; cbn [heap trace].
  - intros Hb. rewrite lookup_insert_is_Some in Hb.
    destruct Hb as [<-|[_ Hb]]; [by rewrite El|exact Hb].
  - intros Hb. rewrite lookup_insert_is_Some.
    destruct (decide (b = b0)); [by left|by right].
  - by exists [Zero b n].
Qed.

(** [zero()] and [zero(n)] never allocate, free, view or reshape: both
    buffers, the set of live blocks and the allocator are unchanged, and
    the only calls they make are [memset]s, whatever the matrix holds and
    whatever [n] is. *)
Theorem zero_keeps_storage (n : Z) (w : world) :
  same_storage w (exec zero w) /\ same_storage w (exec (zero_n n) w).
Proof.
  unfold zero, zero_n, host_zero, dev_zero, host_zero_n, dev_zero_n.
  split; rewrite exec_bind, !exec_gets;
    (eapply same_storage_trans; [apply zero_block_opt_same|]);
    apply zero_block_opt_same.
Qed.

Lemma to_size_row0 (col C : Z) :
  (- 2 ^ 31 <= col <= INT_MAX)%Z ->
  to_int (to_size (to_size 0 * C + to_size col)) = col.
Proof.
  unfold INT_MAX, to_int, to_size. intros Hc.
  rewrite Z.mod_0_l by lia. rewrite Z.mul_0_l, Z.add_0_l, Z.mod_mod by lia.
  rewrite (Z.mod_eq col (2 ^ 64)) by lia.
  replace (col - 2 ^ 64 * (col / 2 ^ 64) + 2 ^ 31)%Z with
    (col + 2 ^ 31 + (- (2 ^ 32 * (col / 2 ^ 64))) * 2 ^ 32)%Z by ring.
  rewrite Z.mod_add by lia. rewrite Z.mod_small by lia. lia.
Qed.

(** [m(0, col)] (the documented use: "row should always be 0") is
    [m[col]], for reading and for writing, for every [int] [col] and
    whatever the shape. *)
Theorem op_call_row0 (w : world) (col v : Z)
    (Hcol : (- 2 ^ 31 <= col <= INT_MAX)%Z) :
  op_call 0 col w = op_index col w /\
  exec (op_call_set 0 col v) w = exec (op_index_set col v) w.
Proof.
  unfold op_call, op_call_set, op_index, op_index_set, exec.
  rewrite !to_size_row0 by exact Hcol. done.
Qed.

Lemma to_size_lin (a b C : Z) :
  to_size (to_size a * C + to_size b) = to_size (a * C + b).
Proof.
  unfold to_size.
  rewrite (Z.add_mod (a mod _ * C)), (Z.mul_mod (a mod _)), !Z.mod_mod by lia.
  rewrite <- Z.mul_mod, <- Z.add_mod by lia. done.
Qed.

(** [operator()] checks no bounds: a column past the end of a row reaches
    into the next row, [m(row, col + cols())] being [m(row + 1, col)]. *)
Theorem op_call_wraps (w : world) (row col : Z) :
  op_call row (col + Z.of_nat (cols w)) w = op_call (row + 1) col w.
Proof.
  unfold op_call, cols. rewrite !to_size_lin. do 3 f_equal. ring.
Qed.

(* ------------------------------------------------------------------ *)
(** ** Instances of the properties above *)


Lemma clear_then_alloc_witness :
  storage_ok w_indep /\
  let w1 := exec clear w_indep in
  let w' := exec (alloc UCL_DOUBLE UCL_FLOAT gpu ok_alloc 4 3) w1 in
  forall b, owns w_indep b -> heap w' !! b = None /\ ~ owns w' b.
Proof.
  assert (H : storage_ok w_indep) by (apply alloc_ok, init_ok).
  split; [exact H|]. apply (clear_then_alloc _ _ _ _ 4 3 w_indep H).
Defined.

Lemma view_write_visible_witness :
  d_store (device w_view) = D_VIEWED 0 /\
  let w' := exec (op_call_set 1 2 7) w_view in
  dev_at (1 * Z.of_nat (cols w_view) + 2) w' = Some 7%Z /\
  op_call 1 2 w' = Some 7%Z.
Proof.
  assert (H1 : d_store (device w_view) = D_VIEWED 0) by reflexivity.
  assert (H2 : h_array (host w_view) = Some 0) by reflexivity.
  assert (H3 : heap w_view !! 0%nat = Some (replicate 12 3%Z)) by reflexivity.
  assert (H4 : length (replicate 12 3%Z) = numel w_view) by reflexivity.
  split; [exact H1|].
  apply (view_write_visible w_view 0 (replicate 12 3%Z) 1 2 7 H1 H2 H3 H4);
    unfold INT_MAX; vm_compute (rows w_view); vm_compute (cols w_view);
    vm_compute (numel w_view); lia.
Defined.


Lemma op_call_row0_witness :
  (- 2 ^ 31 <= 2 <= INT_MAX)%Z /\
  op_call 0 2 w_indep = op_index 2 w_indep /\
  exec (op_call_set 0 2 7) w_indep = exec (op_index_set 2 7) w_indep.
Proof.
  assert (H : (- 2 ^ 31 <= 2 <= INT_MAX)%Z) by (unfold INT_MAX; lia).
  split; [exact H|]. apply (op_call_row0 w_indep 2 7 H).
Defined.
